(** * yandex.py: a wrapper around the Yandex Translate HTTP API

    Shallow embedding of [YandexTranslate] (src/yandex.py).  The class is
    glue code around [requests.Session.get], so the embedding makes the two
    effects of the code explicit:

    - the requests handed to the HTTP session, kept in a log, with the
      remote side an arbitrary function from the history of requests to an
      outcome (a response or a raised exception);
    - the store of [functools.lru_cache(maxsize=1)] that decorates
      [supported_languages].  The decorator wraps the function once, when
      the class body runs, so there is one store for the whole process and
      its key is the argument tuple [(self,)].

    Exceptions keep the state reached when they were raised (a request that
    failed was still sent), hence the monad [world -> result A * world]. *)

From Stdlib Require Import String List ZArith Bool Arith Lia.
Import ListNotations.
Open Scope string_scope.
Set Warnings "-register-all".

(** ** Python values *)

(** What [response.json()] can return.  A decoded object is a [dict]; it is
    kept as an association list read from the front. *)
Inductive json : Type :=
| JNull
| JBool (b : bool)
| JInt (n : Z)
| JFloat (mantissa exponent : Z)
| JStr (s : string)
| JArr (items : list json)
| JObj (fields : list (string * json)).

(** The exceptions that can cross the wrapper.  [YandexException] carries
    its single constructor argument, a decoded body or a [str]. *)
Inductive exn : Type :=
| YandexException (arg : json)
| ConnectionError
| RequestException
| JSONDecodeError
| AttributeError
| TypeError.

Inductive result (A : Type) : Type :=
| Ok (a : A)
| Raise (e : exn).
Arguments Ok {A} a.
Arguments Raise {A} e.

(** ** The HTTP side *)

Record request : Type := mkRequest {
  url : string;
  params : list (string * string)
}.

(** [body = None]: the payload is not JSON, [response.json()] raises. *)
Record response : Type := mkResponse {
  status_code : Z;
  body : option json
}.

Inductive outcome : Type :=
| Returns (r : response)
| Raises (e : exn).

(** A client instance: its identity (instances hash and compare by
    identity, the class defines neither [__eq__] nor [__hash__]) and the
    key stored by [__init__].  Each instance owns one [requests.Session];
    the log tags every request with the instance whose session sent it. *)
Record YandexTranslate : Type := mkClient {
  inst : nat;
  api_key : string
}.

Definition sent_request : Type := (nat * request)%type.

(** The remote side: earlier requests and the current one give the outcome
    of [session.get]. *)
Definition network : Type := list sent_request -> sent_request -> outcome.

Record world : Type := mkWorld {
  sent : list sent_request;
  lru : list (nat * json)
}.

Definition fresh_world : world := mkWorld [] [].

(** ** State and exceptions *)

Definition M (A : Type) : Type := world -> result A * world.

Definition ret {A} (a : A) : M A := fun w => (Ok a, w).

Definition raise {A} (e : exn) : M A := fun w => (Raise e, w).

Definition bind {A B} (m : M A) (k : A -> M B) : M B :=
  fun w =>
    match m w with
    | (Ok a, w') => k a w'
    | (Raise e, w') => (Raise e, w')
    end.

Definition lift {A} (r : result A) : M A := fun w => (r, w).

(** [try: m except <handled>: h] *)
Definition try_except {A} (m : M A) (handled : exn -> bool) (h : M A) : M A :=
  fun w =>
    match m w with
    | (Ok a, w') => (Ok a, w')
    | (Raise e, w') => if handled e then h w' else (Raise e, w')
    end.

Declare Scope py_scope.
Delimit Scope py_scope with py.
Notation "x <- m ;; k" := (bind m (fun x => k))
  (at level 61, m at next level, right associativity) : py_scope.
Open Scope py_scope.

(** ** Built-in operations used by the class *)

Fixpoint assoc (k : string) (m : list (string * json)) : option json :=
  match m with
  | [] => None
  | (k', v) :: m' => if String.eqb k' k then Some v else assoc k m'
  end.

(** [d.get(k)]: only a [dict] has the method; a missing key gives [None]. *)
Definition dict_get (d : json) (k : string) : result json :=
  match d with
  | JObj m => Ok (match assoc k m with Some v => v | None => JNull end)
  | _ => Raise AttributeError
  end.

Fixpoint substr (x s : string) : bool :=
  prefix x s ||
  match s with
  | EmptyString => false
  | String _ s' => substr x s'
  end.

Definition str_eq (x : string) (v : json) : bool :=
  match v with
  | JStr s => String.eqb s x
  | _ => false
  end.

(** [x in c] for a [str] [x]: element of a list, key of a dict, substring of
    a str; any other container operand raises [TypeError]. *)
Definition py_in (x : string) (c : json) : result bool :=
  match c with
  | JArr l => Ok (existsb (str_eq x) l)
  | JObj m => Ok (existsb (fun kv => String.eqb (fst kv) x) m)
  | JStr s => Ok (substr x s)
  | _ => Raise TypeError
  end.

Definition is_ConnectionError (e : exn) : bool :=
  match e with
  | ConnectionError => true
  | _ => false
  end.

(** ** functools.lru_cache *)

Fixpoint cache_find (k : nat) (c : list (nat * json)) : option json :=
  match c with
  | [] => None
  | (k', v) :: c' => if Nat.eqb k' k then Some v else cache_find k c'
  end.

Definition cache_remove (k : nat) (c : list (nat * json)) : list (nat * json) :=
  filter (fun e => negb (Nat.eqb (fst e) k)) c.

(** The store is kept most recently used first.  A hit moves the entry to
    the front; a miss calls the function and, only when it returns, stores
    the value and drops what exceeds [maxsize].  A raised exception leaves
    the store as it was. *)
Definition lru_cache (maxsize : nat) (f : YandexTranslate -> M json)
    (self : YandexTranslate) : M json :=
  fun w =>
    match cache_find (inst self) (lru w) with
    | Some v =>
        (Ok v, mkWorld (sent w) ((inst self, v) :: cache_remove (inst self) (lru w)))
    | None =>
        match f self w with
        | (Ok v, w') =>
            (Ok v, mkWorld (sent w')
                     (firstn maxsize ((inst self, v) :: cache_remove (inst self) (lru w'))))
        | (Raise e, w') => (Raise e, w')
        end
    end.

(** ** The class *)

Definition URL : string := "https://translate.yandex.net/api/v1.5/tr.json/".

Section Client.

Variable net : network.

Definition session_get (self : YandexTranslate) (u : string)
    (p : list (string * string)) : M response :=
  fun w =>
    let r := (inst self, mkRequest u p) in
    let w' := mkWorld (sent w ++ [r]) (lru w) in
    match net (sent w) r with
    | Returns resp => (Ok resp, w')
    | Raises e => (Raise e, w')
    end.

Definition response_json (r : response) : M json :=
  match body r with
  | Some j => ret j
  | None => raise JSONDecodeError
  end.

Definition _get_api_response (self : YandexTranslate) (endpoint : string)
    (payload : list (string * string)) : M json :=
  try_except
    (response <- session_get self (URL ++ endpoint) payload ;;
     if negb (status_code response =? 200)%Z then
       j <- response_json response ;;
       raise (YandexException j)
     else
       response_json response)
    is_ConnectionError
    (raise (YandexException (JStr "API unavailable"))).

(** The function under the decorators. *)
Definition supported_languages_fget (self : YandexTranslate) : M json :=
  let payload := [("ui", "en"); ("key", api_key self)] in
  j <- _get_api_response self "getLangs" payload ;;
  lift (dict_get j "langs").

Definition supported_languages : YandexTranslate -> M json :=
  lru_cache 1 supported_languages_fget.

Definition _get_translate_direction (self : YandexTranslate)
    (source : option string) (target : string) : M string :=
  langs <- supported_languages self ;;
  found <- lift (py_in target langs) ;;
  if negb found then
    raise (YandexException (JStr ("target language '" ++ target ++ "' not supported")))
  else
    match source with
    | None => ret target
    | Some src =>
        langs' <- supported_languages self ;;
        found' <- lift (py_in src langs') ;;
        if negb found' then
          raise (YandexException (JStr ("source language '" ++ src ++ "' not supported")))
        else
          ret (src ++ "-" ++ target)
    end.

(** [def translate(self, text, target='en', source=None)]: an omitted
    [target] is [None] here and takes the default of the signature; an
    omitted [source] is Python's [None]. *)
Definition translate (self : YandexTranslate) (text : string)
    (target : option string) (source : option string) : M json :=
  let target := match target with Some t => t | None => "en" end in
  translate_direction <- _get_translate_direction self source target ;;
  let payload := [("text", text); ("format", "plain");
                  ("lang", translate_direction); ("key", api_key self)] in
  _get_api_response self "translate" payload.

Definition detect_language (self : YandexTranslate) (text : string) : M json :=
  let payload := [("text", text); ("format", "plain"); ("key", api_key self)] in
  _get_api_response self "detect" payload.

End Client.

(** ** Requests, outcomes and runs used in the statements *)

Definition getLangs_request (self : YandexTranslate) : sent_request :=
  (inst self, mkRequest (URL ++ "getLangs") [("ui", "en"); ("key", api_key self)]).

Definition translate_request (self : YandexTranslate) (text lang : string)
    : sent_request :=
  (inst self,
   mkRequest (URL ++ "translate")
     [("text", text); ("format", "plain"); ("lang", lang); ("key", api_key self)]).

Definition detect_request (self : YandexTranslate) (text : string) : sent_request :=
  (inst self,
   mkRequest (URL ++ "detect")
     [("text", text); ("format", "plain"); ("key", api_key self)]).

(** What [_get_api_response] makes of the outcome of its one request. *)
Definition api_result (o : outcome) : result json :=
  match o with
  | Raises e =>
      if is_ConnectionError e then Raise (YandexException (JStr "API unavailable"))
      else Raise e
  | Returns r =>
      match body r with
      | None => Raise JSONDecodeError
      | Some j => if (status_code r =? 200)%Z then Ok j else Raise (YandexException j)
      end
  end.

Definition langs_result (o : outcome) : result json :=
  match api_result o with
  | Ok j => dict_get j "langs"
  | Raise e => Raise e
  end.

(** The direction string, from a language collection already at hand. *)
Definition direction_of (langs : json) (source : option string) (target : string)
    : result string :=
  match py_in target langs with
  | Raise e => Raise e
  | Ok false =>
      Raise (YandexException (JStr ("target language '" ++ target ++ "' not supported")))
  | Ok true =>
      match source with
      | None => Ok target
      | Some src =>
          match py_in src langs with
          | Raise e => Raise e
          | Ok false =>
              Raise (YandexException
                       (JStr ("source language '" ++ src ++ "' not supported")))
          | Ok true => Ok (src ++ "-" ++ target)
          end
      end
  end.

Definition to_endpoint (endpoint : string) (r : sent_request) : bool :=
  String.eqb (url (snd r)) (URL ++ endpoint).

(** The requests sent between two states of the log. *)
Definition issued (w w' : world) : list sent_request :=
  skipn (length (sent w)) (sent w').

(** Accessor calls in sequence, on the listed instances; exceptions are
    caught by the caller and the run goes on. *)
Fixpoint accessor_calls (net : network) (cs : list YandexTranslate) (w : world)
    : list (result json) * world :=
  match cs with
  | [] => ([], w)
  | c :: cs' =>
      let (r, w1) := supported_languages net c w in
      let (rs, w2) := accessor_calls net cs' w1 in
      (r :: rs, w2)
  end.

(** Number of getLangs requests sent by the session of [self]. *)
Definition fetches (self : YandexTranslate) (l : list sent_request) : nat :=
  length (filter (fun r => Nat.eqb (fst r) (inst self) && to_endpoint "getLangs" r) l).

(** At most one getLangs request by [self] over a run of accessor calls
    that starts in a fresh process. *)
Definition computed_at_most_once (net : network) (cs : list YandexTranslate)
    (self : YandexTranslate) : Prop :=
  fetches self (sent (snd (accessor_calls net cs fresh_world))) <= 1.

Inductive operation : Type :=
| OpSupportedLanguages
| OpTranslate (text : string) (target source : option string)
| OpDetectLanguage (text : string).

Definition run_op (net : network) (self : YandexTranslate) (op : operation) : M json :=
  match op with
  | OpSupportedLanguages => supported_languages net self
  | OpTranslate text target source => translate net self text target source
  | OpDetectLanguage text => detect_language net self text
  end.

(** ** Remote sides used in the examples *)

Definition langs_value : json :=
  JObj [("en", JStr "English"); ("es", JStr "Spanish"); ("pl", JStr "Polish")].

Definition langs_body : json :=
  JObj [("dirs", JArr [JStr "en-es"; JStr "es-en"]); ("langs", langs_value)].

(** A service that answers every endpoint with status 200. *)
Definition net_ok : network :=
  fun _ r =>
    if to_endpoint "getLangs" r then Returns (mkResponse 200 (Some langs_body))
    else if to_endpoint "translate" r then
      Returns (mkResponse 200
                 (Some (JObj [("code", JInt 200); ("lang", JStr "en-es");
                              ("text", JArr [JStr "hola"])])))
    else
      Returns (mkResponse 200 (Some (JObj [("code", JInt 200); ("lang", JStr "fr")]))).

Definition invalid_key_body : json :=
  JObj [("code", JInt 401); ("message", JStr "ApiKeyInvalid")].

(** A service that rejects the key. *)
Definition net_401 : network :=
  fun _ _ => Returns (mkResponse 401 (Some invalid_key_body)).

(** The language list is served, every other endpoint rejects the key. *)
Definition net_translate_401 : network :=
  fun _ r =>
    if to_endpoint "getLangs" r then Returns (mkResponse 200 (Some langs_body))
    else Returns (mkResponse 401 (Some invalid_key_body)).

(** No route to the service. *)
Definition net_down : network := fun _ _ => Raises ConnectionError.

(** The first request fails to connect, later ones are answered. *)
Definition net_flaky : network :=
  fun history r =>
    match history with
    | [] => Raises ConnectionError
    | _ :: _ => net_ok history r
    end.

(** getLangs is answered with an object that has no [langs] field. *)
Definition net_no_langs : network :=
  fun _ _ => Returns (mkResponse 200 (Some (JObj [("dirs", JArr [])]))).

Definition alice : YandexTranslate := mkClient 0 "key-a".
Definition bob : YandexTranslate := mkClient 1 "key-b".

(** The world after alice's first accessor call against [net_ok]. *)
Definition alice_cached : world := mkWorld [getLangs_request alice] [(0, langs_value)].

(** ** Runs of several operations *)

(** Operations called one after the other, each on its instance; the caller
    catches whatever is raised and goes on. *)
Definition script : Type := list (YandexTranslate * operation).

Fixpoint run_script (net : network) (s : script) (w : world) : world :=
  match s with
  | [] => w
  | (c, op) :: s' => run_script net s' (snd (run_op net c op w))
  end.

Fixpoint detect_calls (net : network) (self : YandexTranslate) (texts : list string)
    (w : world) : list (result json) * world :=
  match texts with
  | [] => ([], w)
  | text :: texts' =>
      let (r, w1) := detect_language net self text w in
      let (rs, w2) := detect_calls net self texts' w1 in
      (r :: rs, w2)
  end.

Definition preserves {A} (P : world -> Prop) (m : M A) : Prop :=
  forall w, P w -> P (snd (m w)).

(** [v] is what the accessor makes of the answer to a getLangs request that
    the session of instance [i] sent at some point of [log]. *)
Definition fetched_by (net : network) (log : list sent_request) (i : nat) (v : json)
    : Prop :=
  exists self h t,
    inst self = i /\
    log = (h ++ getLangs_request self :: t)%list /\
    langs_result (net h (getLangs_request self)) = Ok v.

Definition cache_provenance (net : network) (w : world) : Prop :=
  forall i v, cache_find i (lru w) = Some v -> fetched_by net (sent w) i v.

(** A remote side that always answers with a JSON body or refuses the
    connection. *)
Definition json_or_refused (net : network) : Prop :=
  forall h r,
    (exists st j, net h r = Returns (mkResponse st (Some j))) \/
    net h r = Raises ConnectionError.

(** A request of [self]: sent by its session, to one of the three endpoints
    under the base URL, with its API key as the key parameter. *)
Definition own_request (self : YandexTranslate) (r : sent_request) : Prop :=
  fst r = inst self /\
  In ("key", api_key self) (params (snd r)) /\
  (exists endpoint,
      In endpoint ["getLangs"; "translate"; "detect"] /\
      url (snd r) = URL ++ endpoint).

(** A gateway in front of the service answers with an HTML error page. *)
Definition net_html : network := fun _ _ => Returns (mkResponse 502 None).

(** The connection is made, then the read times out. *)
Definition net_timeout : network := fun _ _ => Raises RequestException.

(** Every endpoint answers 200 with a JSON array. *)
Definition net_array : network :=
  fun _ _ => Returns (mkResponse 200 (Some (JArr [JStr "en"; JStr "es"]))).

(** * Properties *)

Section Facts.

Local Open Scope list_scope.

Variable net : network.

Lemma api_response_spec self endpoint payload w :
  _get_api_response net self endpoint payload w =
  (api_result (net (sent w) (inst self, mkRequest (URL ++ endpoint)%string payload)),
   mkWorld (sent w ++ [(inst self, mkRequest (URL ++ endpoint)%string payload)]) (lru w)).
Proof.
  unfold _get_api_response, try_except, bind, session_get, api_result, response_json.
  destruct (net _ _) as [[st [j|]]|e]; cbn.
  - destruct (st =? 200)%Z; reflexivity.
  - destruct (st =? 200)%Z; reflexivity.
  - destruct e; reflexivity.
Qed.

Lemma accessor_hit self w v :
  cache_find (inst self) (lru w) = Some v ->
  supported_languages net self w =
  (Ok v, mkWorld (sent w) ((inst self, v) :: cache_remove (inst self) (lru w))).
Proof.
  intros H. unfold supported_languages, lru_cache. now rewrite H.
Qed.

Lemma accessor_miss self w :
  cache_find (inst self) (lru w) = None ->
  supported_languages net self w =
  match langs_result (net (sent w) (getLangs_request self)) with
  | Ok v => (Ok v, mkWorld (sent w ++ [getLangs_request self]) [(inst self, v)])
  | Raise e => (Raise e, mkWorld (sent w ++ [getLangs_request self]) (lru w))
  end.
Proof.
  intros H. unfold supported_languages, lru_cache. rewrite H.
  unfold supported_languages_fget, bind. rewrite api_response_spec.
  unfold langs_result, getLangs_request, lift.
  destruct (api_result _) as [j|e]; [|reflexivity].
  destruct (dict_get j "langs"); reflexivity.
Qed.

Lemma cache_find_front k v c : cache_find k ((k, v) :: c) = Some v.
Proof. cbn. now rewrite Nat.eqb_refl. Qed.

Lemma issued_app w w' l : sent w' = sent w ++ l -> issued w w' = l.
Proof.
  unfold issued. intros ->. induction (sent w) as [|x xs IH]; [reflexivity|exact IH].
Qed.

Lemma issued_none w w' : sent w' = sent w -> issued w w' = [].
Proof. intros H. apply issued_app. now rewrite app_nil_r. Qed.

(** A call that returns leaves its value in the store; a call that raises
    was a miss and leaves the store alone. *)
Lemma accessor_ok_cached self w v w1 :
  supported_languages net self w = (Ok v, w1) ->
  cache_find (inst self) (lru w1) = Some v.
Proof.
  destruct (cache_find (inst self) (lru w)) as [v0|] eqn:E.
  - rewrite (accessor_hit _ _ _ E). intros [= <- <-]. apply cache_find_front.
  - rewrite (accessor_miss _ _ E).
    destruct (langs_result _); intros [= <- <-]. apply cache_find_front.
Qed.

Lemma accessor_raise_miss self w e w1 :
  supported_languages net self w = (Raise e, w1) ->
  cache_find (inst self) (lru w) = None /\
  w1 = mkWorld (sent w ++ [getLangs_request self]) (lru w) /\
  langs_result (net (sent w) (getLangs_request self)) = Raise e.
Proof.
  destruct (cache_find (inst self) (lru w)) as [v0|] eqn:E.
  - rewrite (accessor_hit _ _ _ E). discriminate.
  - rewrite (accessor_miss _ _ E).
    destruct (langs_result _) eqn:L; intros [= <- <-]; auto.
Qed.

(** Accessor calls on one instance whose value is in the store. *)
Lemma accessor_calls_hits self v cs :
  Forall (fun c => inst c = inst self) cs ->
  forall w, cache_find (inst self) (lru w) = Some v ->
  fst (accessor_calls net cs w) = repeat (Ok v) (length cs) /\
  sent (snd (accessor_calls net cs w)) = sent w /\
  cache_find (inst self) (lru (snd (accessor_calls net cs w))) = Some v.
Proof.
  induction 1 as [|c cs Hc _ IH]; intros w Hw; cbn [accessor_calls].
  - auto.
  - assert (Hw' : cache_find (inst c) (lru w) = Some v) by now rewrite Hc.
    rewrite (accessor_hit _ _ _ Hw').
    specialize (IH (mkWorld (sent w) ((inst c, v) :: cache_remove (inst c) (lru w)))).
    destruct (accessor_calls net cs _) as [rs w2]. cbn in *.
    destruct IH as (IH1 & IH2 & IH3).
    + rewrite Hc. now rewrite Nat.eqb_refl.
    + now rewrite IH1.
Qed.

Lemma accessor_ok_sent self w v w1 :
  supported_languages net self w = (Ok v, w1) ->
  sent w1 = sent w ++ [] \/
  (sent w1 = sent w ++ [getLangs_request self] /\
   langs_result (net (sent w) (getLangs_request self)) = Ok v).
Proof.
  destruct (cache_find (inst self) (lru w)) as [v0|] eqn:E.
  - rewrite (accessor_hit _ _ _ E). intros [= <- <-]. left. cbn. now rewrite app_nil_r.
  - rewrite (accessor_miss _ _ E).
    destruct (langs_result _) eqn:L; intros [= <- <-]. right. auto.
Qed.

Lemma direction_spec self source target w langs w1 :
  supported_languages net self w = (Ok langs, w1) ->
  exists c,
    _get_translate_direction net self source target w =
    (direction_of langs source target, mkWorld (sent w1) c) /\
    cache_find (inst self) c = Some langs.
Proof.
  intros H. pose proof (accessor_ok_cached _ _ _ _ H) as Hc.
  unfold _get_translate_direction, direction_of, bind, lift. rewrite H.
  destruct (py_in target langs) as [[|]|e]; cbn [negb].
  - destruct source as [src|].
    + rewrite (accessor_hit _ _ _ Hc).
      exists ((inst self, langs) :: cache_remove (inst self) (lru w1)).
      split; [|apply cache_find_front].
      destruct (py_in src langs) as [[|]|e]; reflexivity.
    + exists (lru w1). now destruct w1.
  - exists (lru w1). now destruct w1.
  - exists (lru w1). now destruct w1.
Qed.

Lemma translate_spec self text target source w langs w1 :
  supported_languages net self w = (Ok langs, w1) ->
  exists c,
    translate net self text (Some target) source w =
    match direction_of langs source target with
    | Raise e => (Raise e, mkWorld (sent w1) c)
    | Ok d =>
        (api_result (net (sent w1) (translate_request self text d)),
         mkWorld (sent w1 ++ [translate_request self text d]) c)
    end.
Proof.
  intros H. destruct (direction_spec self source target _ _ _ H) as (c & Hd & _).
  exists c. unfold translate, bind. rewrite Hd.
  destruct (direction_of langs source target); [|reflexivity].
  now rewrite api_response_spec.
Qed.

Lemma detect_spec self text w :
  detect_language net self text w =
  (api_result (net (sent w) (detect_request self text)),
   mkWorld (sent w ++ [detect_request self text]) (lru w)).
Proof. unfold detect_language. now rewrite api_response_spec. Qed.

Lemma translate_raise self text target source w e w1 :
  supported_languages net self w = (Raise e, w1) ->
  translate net self text target source w = (Raise e, w1).
Proof.
  intros H. unfold translate, _get_translate_direction, bind. now rewrite H.
Qed.

(** C7: for every text, detect_language sends exactly one GET, to the
    detect endpoint, with the parameters text, format=plain and key; its
    result does not depend on the cached language set (no validation), and
    the decoded body of a 200 response is returned as it is. *)
Theorem detect_language_passthrough self text w :
  sent (snd (detect_language net self text w)) = sent w ++ [detect_request self text] /\
  detect_request self text =
    (inst self, mkRequest (URL ++ "detect")%string
                  [("text", text); ("format", "plain"); ("key", api_key self)]) /\
  (forall langs, fst (detect_language net self text (mkWorld (sent w) langs)) =
                 fst (detect_language net self text w)) /\
  (forall j, net (sent w) (detect_request self text) = Returns (mkResponse 200 (Some j)) ->
             fst (detect_language net self text w) = Ok j).
Proof.
  unfold detect_language. repeat split.
  - now rewrite api_response_spec.
  - intros langs. now rewrite !api_response_spec.
  - intros j H. rewrite api_response_spec. cbn [fst].
    unfold detect_request in H. now rewrite H.
Qed.

(** C10: for every text, detect_language leaves the language cache as it
    found it, sends no getLangs request, and behaves the same whatever the
    cache holds. *)
Theorem detect_language_frame self text w :
  lru (snd (detect_language net self text w)) = lru w /\
  existsb (to_endpoint "getLangs") (issued w (snd (detect_language net self text w))) = false /\
  (forall c, detect_language net self text (mkWorld (sent w) c) =
             (fst (detect_language net self text w),
              mkWorld (sent (snd (detect_language net self text w))) c)).
Proof.
  unfold detect_language. rewrite !api_response_spec. cbn [fst snd lru sent].
  repeat split.
  - erewrite issued_app by reflexivity. reflexivity.
  - intros c. now rewrite api_response_spec.
Qed.

(** C8: on the first invocation for an instance (nothing cached for it)
    supported_languages sends one GET to getLangs with the parameters ui=en
    and key, and, the body of the 200 response being an object with a langs
    field, returns the value of that field. *)
Theorem supported_languages_first_call self w :
  cache_find (inst self) (lru w) = None ->
  sent (snd (supported_languages net self w)) = sent w ++ [getLangs_request self] /\
  getLangs_request self =
    (inst self, mkRequest (URL ++ "getLangs")%string [("ui", "en"); ("key", api_key self)]) /\
  (forall fields v,
      net (sent w) (getLangs_request self) = Returns (mkResponse 200 (Some (JObj fields))) ->
      assoc "langs" fields = Some v ->
      fst (supported_languages net self w) = Ok v).
Proof.
  intros Hmiss. rewrite (accessor_miss _ _ Hmiss). repeat split.
  - now destruct (langs_result _).
  - intros fields v Hnet Hl. unfold langs_result. rewrite Hnet. cbn. now rewrite Hl.
Qed.

(** C6: when the first accessor call raises, nothing is stored: the cache
    is as before, and the next call on the same instance sends the getLangs
    request again and answers from the new outcome. *)
Theorem failed_fetch_not_memoized self w e w1 :
  supported_languages net self w = (Raise e, w1) ->
  lru w1 = lru w /\
  sent w1 = sent w ++ [getLangs_request self] /\
  sent (snd (supported_languages net self w1)) = sent w1 ++ [getLangs_request self] /\
  fst (supported_languages net self w1) =
    langs_result (net (sent w1) (getLangs_request self)).
Proof.
  intros H. destruct (accessor_raise_miss _ _ _ _ H) as (Hmiss & -> & _).
  cbn [lru sent]. repeat split.
  all: rewrite accessor_miss by exact Hmiss; now destruct (langs_result _).
Qed.

(** C3: on one instance whose first accessor call fetches and returns v,
    N calls in a row (N >= 1) send exactly one request, the getLangs
    request of the first call, and every call returns v. *)
Theorem accessor_fetches_once self w v w1 N :
  cache_find (inst self) (lru w) = None ->
  supported_languages net self w = (Ok v, w1) ->
  1 <= N ->
  fst (accessor_calls net (repeat self N) w) = repeat (Ok v) N /\
  sent (snd (accessor_calls net (repeat self N) w)) = sent w ++ [getLangs_request self] /\
  fetches self (issued w (snd (accessor_calls net (repeat self N) w))) = 1.
Proof.
  intros Hmiss Hcall HN. destruct N as [|n]; [lia|]. cbn [repeat accessor_calls].
  rewrite Hcall.
  assert (Hs : sent w1 = sent w ++ [getLangs_request self]).
  { rewrite (accessor_miss _ _ Hmiss) in Hcall.
    destruct (langs_result _); now inversion Hcall. }
  destruct (accessor_calls_hits self v (repeat self n)) with (w := w1)
    as (H1 & H2 & _).
  - apply Forall_forall. intros c Hc. now rewrite (repeat_spec _ _ _ Hc).
  - exact (accessor_ok_cached _ _ _ _ Hcall).
  - destruct (accessor_calls net (repeat self n) w1) as [rs w2]. cbn in *.
    rewrite repeat_length in H1. rewrite H1, H2, Hs. repeat split.
    erewrite issued_app by (cbn; rewrite H2, Hs; reflexivity).
    unfold fetches. cbn. now rewrite Nat.eqb_refl.
Qed.

(** C1: the accessor having returned [langs], a target that is not in
    [langs] makes translate raise the target-language error, whatever the
    source, and a target that is in [langs] with a source that is set and
    not in [langs] makes it raise the source-language error; in both cases
    no request goes to the translate endpoint. *)
Theorem translate_validation self text target source w langs w1 :
  supported_languages net self w = (Ok langs, w1) ->
  (py_in target langs = Ok false ->
   fst (translate net self text (Some target) source w) =
     Raise (YandexException (JStr ("target language '" ++ target ++ "' not supported")%string)) /\
   existsb (to_endpoint "translate")
     (issued w (snd (translate net self text (Some target) source w))) = false) /\
  (forall src,
     source = Some src ->
     py_in target langs = Ok true ->
     py_in src langs = Ok false ->
     fst (translate net self text (Some target) source w) =
       Raise (YandexException (JStr ("source language '" ++ src ++ "' not supported")%string)) /\
     existsb (to_endpoint "translate")
       (issued w (snd (translate net self text (Some target) source w))) = false).
Proof.
  intros H. destruct (translate_spec self text target source _ _ _ H) as (c & ->).
  assert (Hlog : forall e,
             existsb (to_endpoint "translate")
               (issued w (snd (@Raise json e, mkWorld (sent w1) c))) = false).
  { intros e. cbn [snd].
    destruct (accessor_ok_sent _ _ _ _ H) as [Hs|[Hs _]];
      erewrite issued_app by (cbn [sent]; exact Hs); reflexivity. }
  unfold direction_of. split.
  - intros ->. split; [reflexivity|apply Hlog].
  - intros src -> -> ->. split; [reflexivity|apply Hlog].
Qed.

(** C2: with target and source both in the language collection the
    translate request carries lang = source-target; with the source unset
    it carries lang = target; an omitted target is "en". *)
Theorem translate_direction self text source w langs w1 :
  supported_languages net self w = (Ok langs, w1) ->
  (forall src tgt,
     py_in tgt langs = Ok true ->
     py_in src langs = Ok true ->
     sent (snd (translate net self text (Some tgt) (Some src) w)) =
       sent w1 ++ [translate_request self text (src ++ "-" ++ tgt)%string]) /\
  (forall tgt,
     py_in tgt langs = Ok true ->
     sent (snd (translate net self text (Some tgt) None w)) =
       sent w1 ++ [translate_request self text tgt]) /\
  translate net self text None source w = translate net self text (Some "en"%string) source w /\
  (forall lang,
     translate_request self text lang =
       (inst self,
        mkRequest (URL ++ "translate")%string
          [("text", text); ("format", "plain"); ("lang", lang); ("key", api_key self)]%string)).
Proof.
  intros H. repeat split.
  - intros src tgt Ht Hs.
    destruct (translate_spec self text tgt (Some src) _ _ _ H) as (c & ->).
    unfold direction_of. now rewrite Ht, Hs.
  - intros tgt Ht.
    destruct (translate_spec self text tgt None _ _ _ H) as (c & ->).
    unfold direction_of. now rewrite Ht.
Qed.

(** C9: a 200 getLangs body that is an object without a langs field makes
    the accessor return None; translate, called next on that instance,
    raises TypeError at the membership test, which is not a
    YandexException, and sends nothing. *)
Theorem missing_langs_field self w fields text target source :
  cache_find (inst self) (lru w) = None ->
  net (sent w) (getLangs_request self) = Returns (mkResponse 200 (Some (JObj fields))) ->
  assoc "langs" fields = None ->
  fst (supported_languages net self w) = Ok JNull /\
  fst (translate net self text target source (snd (supported_languages net self w))) =
    Raise TypeError /\
  (forall arg, TypeError <> YandexException arg) /\
  sent (snd (translate net self text target source (snd (supported_languages net self w)))) =
    sent (snd (supported_languages net self w)).
Proof.
  intros Hmiss Hnet Hl.
  assert (E : supported_languages net self w =
              (Ok JNull, mkWorld (sent w ++ [getLangs_request self]) [(inst self, JNull)])).
  { rewrite (accessor_miss _ _ Hmiss). unfold langs_result. rewrite Hnet. cbn.
    now rewrite Hl. }
  rewrite E. cbn [fst snd].
  assert (E2 : supported_languages net self
                 (mkWorld (sent w ++ [getLangs_request self]) [(inst self, JNull)]) =
               (Ok JNull, mkWorld (sent w ++ [getLangs_request self]) [(inst self, JNull)])).
  { rewrite (accessor_hit _ _ JNull) by apply cache_find_front.
    cbn. now rewrite Nat.eqb_refl. }
  assert (T : translate net self text target source
                (mkWorld (sent w ++ [getLangs_request self]) [(inst self, JNull)]) =
              (Raise TypeError,
               mkWorld (sent w ++ [getLangs_request self]) [(inst self, JNull)])).
  { unfold translate, _get_translate_direction, bind. now rewrite E2. }
  rewrite T. repeat split. discriminate.
Qed.

Ltac trace_cases H pre :=
  apply app_inv_head in H;
  destruct pre as [|? [|? [|? ?]]]; cbn in H; inversion H; subst; clear H.

Lemma api_result_status st j :
  st <> 200%Z -> api_result (Returns (mkResponse st (Some j))) = Raise (YandexException j).
Proof.
  intros Hst. cbn. destruct (Z.eqb_spec st 200); [contradiction|reflexivity].
Qed.

(** C4: the request method maps a non-200 response to a YandexException
    carrying the decoded body, a ConnectionError to a YandexException whose
    argument is the string "API unavailable", and returns the decoded body
    of a 200 response; and for each of the three public operations and each
    request it sends, the first two outcomes make the operation raise
    that same exception, while a 200 response to its translate or detect
    request makes it return the decoded body. *)
Theorem api_failure_mapping self :
  (forall endpoint payload w,
     let rq := (inst self, mkRequest (URL ++ endpoint)%string payload) in
     sent (snd (_get_api_response net self endpoint payload w)) = sent w ++ [rq] /\
     (forall st j,
        st <> 200%Z ->
        net (sent w) rq = Returns (mkResponse st (Some j)) ->
        fst (_get_api_response net self endpoint payload w) = Raise (YandexException j)) /\
     (net (sent w) rq = Raises ConnectionError ->
      fst (_get_api_response net self endpoint payload w) =
        Raise (YandexException (JStr "API unavailable"))) /\
     (forall j,
        net (sent w) rq = Returns (mkResponse 200 (Some j)) ->
        fst (_get_api_response net self endpoint payload w) = Ok j)) /\
  (forall op w pre rq post,
     sent (snd (run_op net self op w)) = sent w ++ pre ++ rq :: post ->
     (forall st j,
        st <> 200%Z ->
        net (sent w ++ pre) rq = Returns (mkResponse st (Some j)) ->
        fst (run_op net self op w) = Raise (YandexException j)) /\
     (net (sent w ++ pre) rq = Raises ConnectionError ->
      fst (run_op net self op w) = Raise (YandexException (JStr "API unavailable"))) /\
     (forall j,
        net (sent w ++ pre) rq = Returns (mkResponse 200 (Some j)) ->
        to_endpoint "getLangs" rq = false ->
        fst (run_op net self op w) = Ok j)).
Proof.
  split.
  - intros endpoint payload w. cbv zeta. rewrite api_response_spec. cbn [fst snd sent].
    repeat split.
    + intros st j Hst ->. now apply api_result_status.
    + now intros ->.
    + now intros j ->.
  - intros [|text target source|text] w pre rq post Hsent; cbn [run_op] in *.
    + (* supported_languages *)
      destruct (supported_languages net self w) as [[v|e] w1] eqn:E; cbn [fst snd] in *.
      * destruct (accessor_ok_sent _ _ _ _ E) as [Hs|[Hs Hl]]; rewrite Hs in Hsent;
          trace_cases Hsent pre.
        rewrite app_nil_r. unfold langs_result in Hl. repeat split.
        -- intros st j Hst Hn. rewrite Hn, api_result_status in Hl by exact Hst.
           discriminate.
        -- intros Hn. rewrite Hn in Hl. discriminate.
        -- intros j _ Hf. discriminate.
      * destruct (accessor_raise_miss _ _ _ _ E) as (_ & -> & Hl). cbn [sent] in Hsent.
        trace_cases Hsent pre. rewrite app_nil_r. unfold langs_result in Hl.
        repeat split.
        -- intros st j Hst Hn. rewrite Hn, api_result_status in Hl by exact Hst.
           now inversion Hl.
        -- intros Hn. rewrite Hn in Hl. now inversion Hl.
        -- intros j _ Hf. discriminate.
    + (* translate *)
      assert (Ht : translate net self text target source w =
                   translate net self text
                     (Some match target with Some t => t | None => "en"%string end)
                     source w) by now destruct target.
      rewrite Ht in *. clear Ht.
      set (tgt := match target with Some t => t | None => "en"%string end) in *.
      destruct (supported_languages net self w) as [[v|e] w1] eqn:E.
      * destruct (translate_spec self text tgt source _ _ _ E) as (c & Hspec).
        rewrite Hspec in *. clear Hspec.
        destruct (direction_of v source tgt) as [d|e]; cbn [fst snd sent] in *.
        -- destruct (accessor_ok_sent _ _ _ _ E) as [Hs|[Hs Hl]]; rewrite Hs in *;
             rewrite <- app_assoc in Hsent; trace_cases Hsent pre;
             rewrite ?app_nil_r; unfold langs_result in *.
           ++ repeat split.
              ** intros st j Hst ->. now apply api_result_status.
              ** now intros ->.
              ** now intros j -> _.
           ++ repeat split.
              ** intros st j Hst Hn. rewrite Hn, api_result_status in Hl by exact Hst.
                 discriminate.
              ** intros Hn. rewrite Hn in Hl. discriminate.
              ** intros j _ Hf. discriminate.
           ++ repeat split.
              ** intros st j Hst ->. now apply api_result_status.
              ** now intros ->.
              ** now intros j -> _.
        -- destruct (accessor_ok_sent _ _ _ _ E) as [Hs|[Hs Hl]]; rewrite Hs in *;
             trace_cases Hsent pre.
           rewrite app_nil_r. unfold langs_result in Hl. repeat split.
           ++ intros st j Hst Hn. rewrite Hn, api_result_status in Hl by exact Hst.
              discriminate.
           ++ intros Hn. rewrite Hn in Hl. discriminate.
           ++ intros j _ Hf. discriminate.
      * rewrite (translate_raise _ _ _ _ _ _ _ E) in *. cbn [fst snd] in *.
        destruct (accessor_raise_miss _ _ _ _ E) as (_ & -> & Hl). cbn [sent] in Hsent.
        trace_cases Hsent pre. rewrite app_nil_r. unfold langs_result in Hl.
        repeat split.
        -- intros st j Hst Hn. rewrite Hn, api_result_status in Hl by exact Hst.
           now inversion Hl.
        -- intros Hn. rewrite Hn in Hl. now inversion Hl.
        -- intros j _ Hf. discriminate.
    + (* detect_language *)
      rewrite detect_spec in *. cbn [fst snd sent] in *. trace_cases Hsent pre. rewrite app_nil_r.
      repeat split.
      * intros st j Hst ->. now apply api_result_status.
      * now intros ->.
      * now intros j -> _.
Qed.

Lemma single_entry k v (c : list (nat * json)) :
  cache_find k c = Some v -> length c <= 1 -> c = [(k, v)].
Proof.
  destruct c as [|[k' v'] [|? ?]]; cbn; try discriminate; try lia.
  destruct (Nat.eqb_spec k' k); [|discriminate]. now intros [= ->] _; subst.
Qed.

(** The decorator never holds more than [maxsize = 1] entries. *)
Lemma accessor_keeps_bound self w :
  length (lru w) <= 1 ->
  length (lru (snd (supported_languages net self w))) <= 1.
Proof.
  intros Hb. destruct (cache_find (inst self) (lru w)) as [v|] eqn:E.
  - rewrite (accessor_hit _ _ _ E). cbn [snd lru].
    rewrite (single_entry _ _ _ E Hb). cbn. now rewrite Nat.eqb_refl.
  - rewrite (accessor_miss _ _ E). now destruct (langs_result _).
Qed.

(** C5, amended: the value of an instance sits in the one entry of a cache
    that all instances share.  While accessor calls come from that instance
    only, each returns the stored value and nothing is sent; an accessor
    call of another instance that returns takes the entry over, and the
    first instance then fetches again. *)
Theorem cache_single_entry self v w :
  cache_find (inst self) (lru w) = Some v ->
  length (lru w) <= 1 ->
  (forall cs,
     Forall (fun c => inst c = inst self) cs ->
     fst (accessor_calls net cs w) = repeat (Ok v) (length cs) /\
     sent (snd (accessor_calls net cs w)) = sent w) /\
  (forall other v' w',
     inst other <> inst self ->
     supported_languages net other w = (Ok v', w') ->
     lru w' = [(inst other, v')] /\
     cache_find (inst self) (lru w') = None /\
     sent (snd (supported_languages net self w')) = sent w' ++ [getLangs_request self]).
Proof.
  intros Hc Hb. split.
  - intros cs Hcs. destruct (accessor_calls_hits self v cs Hcs w Hc) as (H1 & H2 & _).
    now split.
  - intros other v' w' Hne Hcall.
    assert (Hmiss : cache_find (inst other) (lru w) = None).
    { rewrite (single_entry _ _ _ Hc Hb). cbn.
      destruct (Nat.eqb_spec (inst self) (inst other)); [congruence|reflexivity]. }
    rewrite (accessor_miss _ _ Hmiss) in Hcall.
    destruct (langs_result _); inversion Hcall; subst; clear Hcall. cbn [lru sent].
    assert (Hgone : cache_find (inst self) [(inst other, v')] = None).
    { cbn. destruct (Nat.eqb_spec (inst other) (inst self)); [contradiction|reflexivity]. }
    repeat split; [exact Hgone|].
    rewrite accessor_miss by exact Hgone. now destruct (langs_result _).
Qed.

End Facts.

(** * Concrete runs *)

Local Open Scope list_scope.

(** C5 as stated fails: alice, bob, alice in a fresh process makes alice's
    session send getLangs twice. *)
Lemma per_instance_once_fails :
  ~ computed_at_most_once net_ok [alice; bob; alice] alice.
Proof.
  unfold computed_at_most_once. vm_compute. intros H. lia.
Qed.

Example alice_bob_alice_fetches :
  fetches alice (sent (snd (accessor_calls net_ok [alice; bob; alice] fresh_world))) = 2.
Proof. reflexivity. Qed.

Example translate_hello :
  translate net_ok alice "hello" (Some "es"%string) (Some "en"%string) fresh_world =
  (Ok (JObj [("code", JInt 200); ("lang", JStr "en-es"); ("text", JArr [JStr "hola"])]%string),
   mkWorld [getLangs_request alice; translate_request alice "hello" "en-es"]
           [(0, langs_value)]).
Proof. reflexivity. Qed.

Example translate_unknown_target :
  translate net_ok alice "x" (Some "zz"%string) None fresh_world =
  (Raise (YandexException (JStr "target language 'zz' not supported")),
   mkWorld [getLangs_request alice] [(0, langs_value)]).
Proof. reflexivity. Qed.

Example key_rejected :
  supported_languages net_401 alice fresh_world =
  (Raise (YandexException invalid_key_body), mkWorld [getLangs_request alice] []).
Proof. reflexivity. Qed.

Example service_down :
  detect_language net_down alice "Bonjour" fresh_world =
  (Raise (YandexException (JStr "API unavailable")),
   mkWorld [detect_request alice "Bonjour"] []).
Proof. reflexivity. Qed.

Lemma translate_validation_witness :
  supported_languages net_ok alice fresh_world = (Ok langs_value, alice_cached) /\
  py_in "zz" langs_value = Ok false /\
  fst (translate net_ok alice "x" (Some "zz"%string) (Some "en"%string) fresh_world) =
    Raise (YandexException (JStr "target language 'zz' not supported")) /\
  py_in "en" langs_value = Ok true /\
  fst (translate net_ok alice "x" (Some "en"%string) (Some "zz"%string) fresh_world) =
    Raise (YandexException (JStr "source language 'zz' not supported")).
Proof.
  split; [reflexivity|]. split; [reflexivity|]. split.
  - apply (translate_validation net_ok alice "x" "zz" (Some "en"%string)
             fresh_world langs_value alice_cached); reflexivity.
  - split; [reflexivity|].
    apply (proj2 (translate_validation net_ok alice "x" "en" (Some "zz"%string)
                    fresh_world langs_value alice_cached eq_refl) "zz"%string);
      reflexivity.
Defined.

Lemma translate_direction_witness :
  supported_languages net_ok alice fresh_world = (Ok langs_value, alice_cached) /\
  py_in "es" langs_value = Ok true /\
  py_in "en" langs_value = Ok true /\
  sent (snd (translate net_ok alice "hello" (Some "es"%string) (Some "en"%string) fresh_world)) =
    sent alice_cached ++ [translate_request alice "hello" "en-es"] /\
  sent (snd (translate net_ok alice "hello" (Some "es"%string) None fresh_world)) =
    sent alice_cached ++ [translate_request alice "hello" "es"].
Proof.
  pose proof (translate_direction net_ok alice "hello" None fresh_world
                langs_value alice_cached eq_refl) as (H1 & H2 & _).
  split; [reflexivity|]. split; [reflexivity|]. split; [reflexivity|]. split.
  - exact (H1 "en"%string "es"%string eq_refl eq_refl).
  - exact (H2 "es"%string eq_refl).
Defined.

Lemma accessor_fetches_once_witness :
  cache_find (inst alice) (lru fresh_world) = None /\
  supported_languages net_ok alice fresh_world = (Ok langs_value, alice_cached) /\
  1 <= 3 /\
  fst (accessor_calls net_ok (repeat alice 3) fresh_world) = repeat (Ok langs_value) 3 /\
  sent (snd (accessor_calls net_ok (repeat alice 3) fresh_world)) =
    sent fresh_world ++ [getLangs_request alice].
Proof.
  split; [reflexivity|]. split; [reflexivity|]. split; [lia|].
  pose proof (accessor_fetches_once net_ok alice fresh_world langs_value alice_cached 3
                eq_refl eq_refl ltac:(lia)) as (H1 & H2 & _).
  split; assumption.
Defined.

Lemma api_failure_mapping_witness :
  sent (snd (run_op net_translate_401 alice
               (OpTranslate "hello" (Some "es"%string) (Some "en"%string)) fresh_world)) =
    sent fresh_world ++ [getLangs_request alice]
      ++ translate_request alice "hello" "en-es" :: [] /\
  401%Z <> 200%Z /\
  net_translate_401 (sent fresh_world ++ [getLangs_request alice])
    (translate_request alice "hello" "en-es") =
    Returns (mkResponse 401 (Some invalid_key_body)) /\
  fst (run_op net_translate_401 alice
         (OpTranslate "hello" (Some "es"%string) (Some "en"%string)) fresh_world) =
    Raise (YandexException invalid_key_body).
Proof.
  split; [reflexivity|]. split; [lia|]. split; [reflexivity|].
  apply (proj1 (proj2 (api_failure_mapping net_translate_401 alice)
                  (OpTranslate "hello" (Some "es"%string) (Some "en"%string))
                  fresh_world [getLangs_request alice]
                  (translate_request alice "hello" "en-es") [] eq_refl)
           401%Z invalid_key_body); [lia|reflexivity].
Defined.

Lemma cache_single_entry_witness :
  cache_find (inst alice) (lru alice_cached) = Some langs_value /\
  length (lru alice_cached) <= 1 /\
  Forall (fun c => inst c = inst alice) [alice; alice] /\
  fst (accessor_calls net_ok [alice; alice] alice_cached) = repeat (Ok langs_value) 2 /\
  inst bob <> inst alice /\
  supported_languages net_ok bob alice_cached =
    (Ok langs_value, mkWorld [getLangs_request alice; getLangs_request bob] [(1, langs_value)]) /\
  cache_find (inst alice) [(1, langs_value)] = None.
Proof.
  assert (Hb : length (lru alice_cached) <= 1) by (cbn; lia).
  assert (Hall : Forall (fun c => inst c = inst alice) [alice; alice])
    by (repeat constructor).
  assert (Hne : inst bob <> inst alice) by discriminate.
  pose proof (cache_single_entry net_ok alice langs_value alice_cached eq_refl Hb)
    as (H1 & H2).
  split; [reflexivity|]. split; [exact Hb|]. split; [exact Hall|].
  split; [exact (proj1 (H1 [alice; alice] Hall))|].
  split; [exact Hne|]. split; [reflexivity|].
  exact (proj1 (proj2 (H2 bob langs_value _ Hne eq_refl))).
Defined.

Lemma failed_fetch_not_memoized_witness :
  supported_languages net_flaky alice fresh_world =
    (Raise (YandexException (JStr "API unavailable")),
     mkWorld [getLangs_request alice] []) /\
  sent (snd (supported_languages net_flaky alice (mkWorld [getLangs_request alice] []))) =
    [getLangs_request alice] ++ [getLangs_request alice] /\
  fst (supported_languages net_flaky alice (mkWorld [getLangs_request alice] [])) =
    Ok langs_value.
Proof.
  split; [reflexivity|].
  pose proof (failed_fetch_not_memoized net_flaky alice fresh_world
                (YandexException (JStr "API unavailable"))
                (mkWorld [getLangs_request alice] []) eq_refl)
    as (_ & _ & H3 & H4).
  split; [exact H3|]. exact (eq_trans H4 eq_refl).
Defined.

Lemma supported_languages_first_call_witness :
  cache_find (inst alice) (lru fresh_world) = None /\
  net_ok (sent fresh_world) (getLangs_request alice) =
    Returns (mkResponse 200 (Some langs_body)) /\
  fst (supported_languages net_ok alice fresh_world) = Ok langs_value.
Proof.
  split; [reflexivity|]. split; [reflexivity|].
  apply (proj2 (proj2 (supported_languages_first_call net_ok alice fresh_world eq_refl))
           [("dirs", JArr [JStr "en-es"; JStr "es-en"]); ("langs", langs_value)]%string
           langs_value); reflexivity.
Defined.

Lemma missing_langs_field_witness :
  cache_find (inst alice) (lru fresh_world) = None /\
  net_no_langs (sent fresh_world) (getLangs_request alice) =
    Returns (mkResponse 200 (Some (JObj [("dirs", JArr [])]%string))) /\
  assoc "langs" [("dirs", JArr [])]%string = None /\
  fst (supported_languages net_no_langs alice fresh_world) = Ok JNull /\
  fst (translate net_no_langs alice "x" None None
         (snd (supported_languages net_no_langs alice fresh_world))) = Raise TypeError.
Proof.
  split; [reflexivity|]. split; [reflexivity|]. split; [reflexivity|].
  pose proof (missing_langs_field net_no_langs alice fresh_world
                [("dirs", JArr [])]%string "x" None None eq_refl eq_refl eq_refl)
    as (H1 & H2 & _).
  split; assumption.
Defined.

Lemma detect_language_passthrough_witness :
  net_ok (sent fresh_world) (detect_request alice "Bonjour") =
    Returns (mkResponse 200 (Some (JObj [("code", JInt 200); ("lang", JStr "fr")]%string))) /\
  fst (detect_language net_ok alice "Bonjour" fresh_world) =
    Ok (JObj [("code", JInt 200); ("lang", JStr "fr")]%string).
Proof.
  split; [reflexivity|].
  apply (proj2 (proj2 (proj2 (detect_language_passthrough net_ok alice "Bonjour" fresh_world))));
    reflexivity.
Defined.

(** * Further properties of the class *)

Section Invariants.

Variable net : network.
Variable P : world -> Prop.

Hypothesis P_send : forall w r, P w -> P (mkWorld (sent w ++ [r]) (lru w)).
Hypothesis P_accessor : forall self, preserves P (supported_languages net self).

Lemma preserves_bind {A B} (m : M A) (k : A -> M B) :
  preserves P m -> (forall a, preserves P (k a)) -> preserves P (bind m k).
Proof.
  intros Hm Hk w Hw. unfold bind. specialize (Hm w Hw).
  destruct (m w) as [[a|e] w1]; cbn [snd] in *; [now apply Hk|exact Hm].
Qed.

Lemma preserves_lift {A} (r : result A) : preserves P (lift r).
Proof. now intros w Hw. Qed.

Lemma preserves_api self endpoint payload :
  preserves P (_get_api_response net self endpoint payload).
Proof. intros w Hw. rewrite api_response_spec. now apply P_send. Qed.

Lemma preserves_direction self source target :
  preserves P (_get_translate_direction net self source target).
Proof.
  unfold _get_translate_direction.
  apply preserves_bind; [apply P_accessor|]. intros langs.
  apply preserves_bind; [apply preserves_lift|]. intros found.
  destruct (negb found); [now intros w Hw|].
  destruct source as [src|]; [|now intros w Hw].
  apply preserves_bind; [apply P_accessor|]. intros langs'.
  apply preserves_bind; [apply preserves_lift|]. intros found'.
  destruct (negb found'); now intros w Hw.
Qed.

Lemma preserves_op self op : preserves P (run_op net self op).
Proof.
  destruct op as [|text target source|text]; cbn [run_op].
  - apply P_accessor.
  - unfold translate. apply preserves_bind; [apply preserves_direction|].
    intros d. apply preserves_api.
  - unfold detect_language. apply preserves_api.
Qed.

Lemma preserves_script s : forall w, P w -> P (run_script net s w).
Proof.
  induction s as [|[c op] s IH]; intros w Hw; cbn [run_script]; [exact Hw|].
  apply IH. now apply preserves_op.
Qed.

End Invariants.

Section Operations.

Variable net : network.

Ltac split_trace H pre :=
  apply app_inv_head in H;
  destruct pre as [|? [|? [|? ?]]]; cbn in H; inversion H; subst; clear H.

Lemma translate_default_arg self text target source w :
  translate net self text target source w =
  translate net self text
    (Some match target with Some t => t | None => "en"%string end) source w.
Proof. now destruct target. Qed.

Lemma api_result_ok o j :
  api_result o = Ok j ->
  exists r, o = Returns r /\ status_code r = 200%Z /\ body r = Some j.
Proof.
  destruct o as [[st [b|]]|e]; cbn.
  - destruct (Z.eqb_spec st 200); [|discriminate].
    intros [= <-]. subst st. now eexists.
  - discriminate.
  - now destruct (is_ConnectionError e).
Qed.

Lemma api_result_cases o :
  (exists j, o = Returns (mkResponse 200 (Some j))) \/ (exists e, api_result o = Raise e).
Proof.
  destruct (api_result o) as [j|e] eqn:E; [left|right; now exists e].
  destruct (api_result_ok _ _ E) as ([st b] & -> & Hst & Hb). cbn in *. subst.
  now exists j.
Qed.

Lemma direction_ok_inv langs source target d :
  direction_of langs source target = Ok d ->
  py_in target langs = Ok true /\
  match source with
  | None => d = target
  | Some src => py_in src langs = Ok true /\ d = (src ++ "-" ++ target)%string
  end.
Proof.
  unfold direction_of. destruct (py_in target langs) as [[|]|e]; try discriminate.
  destruct source as [src|].
  - destruct (py_in src langs) as [[|]|e]; try discriminate. now intros [= <-].
  - now intros [= <-].
Qed.

Lemma translate_spec_cached self text target source w langs w1 :
  supported_languages net self w = (Ok langs, w1) ->
  exists c,
    cache_find (inst self) c = Some langs /\
    translate net self text (Some target) source w =
    match direction_of langs source target with
    | Raise e => (Raise e, mkWorld (sent w1) c)
    | Ok d =>
        (api_result (net (sent w1) (translate_request self text d)),
         mkWorld (sent w1 ++ [translate_request self text d]) c)
    end.
Proof.
  intros H. destruct (direction_spec net self source target _ _ _ H) as (c & Hd & Hc).
  exists c. split; [exact Hc|]. unfold translate, bind. rewrite Hd.
  destruct (direction_of langs source target); [|reflexivity].
  now rewrite api_response_spec.
Qed.

(** The requests of one translate call: at most one getLangs request,
    then at most one translate request. *)
Lemma translate_issued self text target source w :
  exists gl tr,
    sent (snd (translate net self text target source w)) = sent w ++ gl ++ tr /\
    (gl = [] \/ gl = [getLangs_request self]) /\
    (tr = [] \/ exists d, tr = [translate_request self text d]).
Proof.
  rewrite translate_default_arg.
  set (tgt := match target with Some t => t | None => "en"%string end).
  destruct (supported_languages net self w) as [[langs|e] w1] eqn:E.
  - destruct (translate_spec net self text tgt source _ _ _ E) as (c & ->).
    assert (Hgl : exists gl, sent w1 = sent w ++ gl /\
                             (gl = [] \/ gl = [getLangs_request self])).
    { destruct (accessor_ok_sent net _ _ _ _ E) as [Hs|[Hs _]]; eauto. }
    destruct Hgl as (gl & Hs & Hgl).
    destruct (direction_of langs source tgt) as [d|e]; cbn [snd sent]; rewrite Hs.
    + exists gl, [translate_request self text d]. rewrite app_assoc. eauto.
    + exists gl, []. rewrite app_nil_r. auto.
  - rewrite (translate_raise net _ _ _ _ _ _ _ E). cbn [snd].
    destruct (accessor_raise_miss net _ _ _ _ E) as (_ & -> & _).
    exists [getLangs_request self], []. cbn. auto.
Qed.

(** Whatever makes the request method raise on a request of an operation
    makes the operation raise the same exception, and that request is the
    last one it sends. *)
Lemma request_failure_ends_op self op w pre rq post e :
  sent (snd (run_op net self op w)) = sent w ++ pre ++ rq :: post ->
  api_result (net (sent w ++ pre) rq) = Raise e ->
  fst (run_op net self op w) = Raise e /\ post = [].
Proof.
  destruct op as [|text target source|text]; cbn [run_op]; intros Hsent Hfail.
  - destruct (supported_languages net self w) as [[v|e0] w1] eqn:E; cbn [fst snd] in *.
    + destruct (accessor_ok_sent net _ _ _ _ E) as [Hs|[Hs Hl]]; rewrite Hs in Hsent;
        split_trace Hsent pre.
      rewrite app_nil_r in Hfail. unfold langs_result in Hl. rewrite Hfail in Hl.
      discriminate.
    + destruct (accessor_raise_miss net _ _ _ _ E) as (_ & -> & Hl). cbn [sent] in Hsent.
      split_trace Hsent pre. rewrite app_nil_r in Hfail. unfold langs_result in Hl.
      rewrite Hfail in Hl. now inversion Hl.
  - rewrite translate_default_arg in *.
    set (tgt := match target with Some t => t | None => "en"%string end) in *.
    destruct (supported_languages net self w) as [[v|e0] w1] eqn:E.
    + destruct (translate_spec net self text tgt source _ _ _ E) as (c & Hspec).
      rewrite Hspec in *. clear Hspec.
      destruct (direction_of v source tgt) as [d|e1]; cbn [fst snd sent] in *.
      * destruct (accessor_ok_sent net _ _ _ _ E) as [Hs|[Hs Hl]]; rewrite Hs in *;
          rewrite <- app_assoc in Hsent; split_trace Hsent pre;
          rewrite ?app_nil_r in *; unfold langs_result in *.
        -- now rewrite Hfail.
        -- rewrite Hfail in Hl. discriminate.
        -- now rewrite Hfail.
      * destruct (accessor_ok_sent net _ _ _ _ E) as [Hs|[Hs Hl]]; rewrite Hs in *;
          split_trace Hsent pre.
        rewrite app_nil_r in Hfail. unfold langs_result in Hl. rewrite Hfail in Hl.
        discriminate.
    + rewrite (translate_raise net _ _ _ _ _ _ _ E) in *. cbn [fst snd] in *.
      destruct (accessor_raise_miss net _ _ _ _ E) as (_ & -> & Hl). cbn [sent] in Hsent.
      split_trace Hsent pre. rewrite app_nil_r in Hfail. unfold langs_result in Hl.
      rewrite Hfail in Hl. now inversion Hl.
  - rewrite detect_spec in *. cbn [fst snd sent] in *. split_trace Hsent pre.
    rewrite app_nil_r in Hfail. now rewrite Hfail.
Qed.

(** X1: for each public operation and each request it sends, a response
    whose body is not JSON makes the operation raise the decoding error of
    [response.json()], whatever the status code; it is not turned into a
    YandexException. *)
Theorem undecodable_body_raises self op w pre rq post st :
  sent (snd (run_op net self op w)) = sent w ++ pre ++ rq :: post ->
  net (sent w ++ pre) rq = Returns (mkResponse st None) ->
  fst (run_op net self op w) = Raise JSONDecodeError.
Proof.
  intros Hsent Hnet.
  apply (request_failure_ends_op self op w pre rq post JSONDecodeError Hsent).
  now rewrite Hnet.
Qed.

(** X2: only ConnectionError is translated.  Any other exception raised by
    the session while an operation sends a request leaves the operation
    unchanged. *)
Theorem transport_error_propagates self op w pre rq post e :
  sent (snd (run_op net self op w)) = sent w ++ pre ++ rq :: post ->
  net (sent w ++ pre) rq = Raises e ->
  is_ConnectionError e = false ->
  fst (run_op net self op w) = Raise e.
Proof.
  intros Hsent Hnet He.
  apply (request_failure_ends_op self op w pre rq post e Hsent).
  rewrite Hnet. cbn. now rewrite He.
Qed.

(** X3: an operation goes on after a request only when the answer is a 200
    response with a JSON body.  After any other outcome it raises and sends
    nothing more: no retry, no fallback request. *)
Theorem no_request_after_failure self op w pre rq post :
  sent (snd (run_op net self op w)) = sent w ++ pre ++ rq :: post ->
  (forall j, net (sent w ++ pre) rq <> Returns (mkResponse 200 (Some j))) ->
  post = [] /\ exists e, fst (run_op net self op w) = Raise e.
Proof.
  intros Hsent Hnot.
  destruct (api_result_cases (net (sent w ++ pre) rq)) as [[j Hj]|[e He]].
  - now destruct (Hnot j).
  - destruct (request_failure_ends_op self op w pre rq post e Hsent He) as [Hr Hp].
    split; [exact Hp|now exists e].
Qed.

(** X4: one translate call sends at most two requests: at most one
    getLangs request, and after it at most one translate request; nothing
    else and never in the other order. *)
Theorem translate_request_order self text target source w :
  exists gl tr,
    issued w (snd (translate net self text target source w)) = gl ++ tr /\
    (gl = [] \/ gl = [getLangs_request self]) /\
    (tr = [] \/ exists d, tr = [translate_request self text d]).
Proof.
  destruct (translate_issued self text target source w) as (gl & tr & Hs & Hgl & Htr).
  exists gl, tr. split; [now apply issued_app|]. now split.
Qed.

(** X5: every request an operation sends goes through the session of its
    own instance, to one of the three endpoints under the base URL, and
    carries the instance's API key as the key parameter. *)
Theorem requests_carry_key self op w :
  Forall (own_request self) (issued w (snd (run_op net self op w))).
Proof.
  assert (Hgl : own_request self (getLangs_request self)).
  { split; [reflexivity|]. split; [cbn; auto|].
    exists "getLangs"%string. cbn. auto. }
  assert (Htr : forall text d, own_request self (translate_request self text d)).
  { intros text d. split; [reflexivity|]. split; [cbn; auto 6|].
    exists "translate"%string. cbn. auto. }
  assert (Hdt : forall text, own_request self (detect_request self text)).
  { intros text. split; [reflexivity|]. split; [cbn; auto 6|].
    exists "detect"%string. cbn. auto. }
  destruct op as [|text target source|text]; cbn [run_op].
  - destruct (supported_languages net self w) as [[v|e] w1] eqn:E; cbn [snd].
    + destruct (accessor_ok_sent net _ _ _ _ E) as [Hs|[Hs _]];
        rewrite (issued_app _ _ _ Hs); auto.
    + destruct (accessor_raise_miss net _ _ _ _ E) as (_ & -> & _).
      erewrite issued_app by reflexivity. auto.
  - destruct (translate_issued self text target source w) as (gl & tr & Hs & Hg & Ht).
    rewrite (issued_app _ _ _ Hs). apply Forall_app. split.
    + destruct Hg as [->| ->]; auto.
    + destruct Ht as [->|[d ->]]; auto.
  - rewrite detect_spec. erewrite issued_app by reflexivity. auto.
Qed.

End Operations.

Section Composition.

Variable net : network.

(** X6: a value returned by translate is the decoded body of a 200
    response to the translate request that the call sent last. *)
Theorem translate_result_provenance self text target source w j :
  fst (translate net self text target source w) = Ok j ->
  exists pre d r,
    sent (snd (translate net self text target source w)) =
      sent w ++ pre ++ [translate_request self text d] /\
    net (sent w ++ pre) (translate_request self text d) = Returns r /\
    status_code r = 200%Z /\
    body r = Some j.
Proof.
  rewrite translate_default_arg.
  set (tgt := match target with Some t => t | None => "en"%string end).
  destruct (supported_languages net self w) as [[langs|e] w1] eqn:E.
  - destruct (translate_spec net self text tgt source _ _ _ E) as (c & ->).
    destruct (direction_of langs source tgt) as [d|e]; cbn [fst snd sent];
      [|discriminate].
    intros Hok. destruct (api_result_ok _ _ Hok) as (r & Hr & Hst & Hb).
    assert (Hpre : exists pre, sent w1 = sent w ++ pre).
    { destruct (accessor_ok_sent net _ _ _ _ E) as [Hs|[Hs _]]; eauto. }
    destruct Hpre as (pre & Hs). exists pre, d, r. rewrite Hs in *.
    rewrite app_assoc. auto.
  - rewrite (translate_raise net _ _ _ _ _ _ _ E). discriminate.
Qed.

(** X7: translate sends a translate request only for codes that passed the
    membership test: the language collection is then cached for the
    instance, the target is in it, a source that is set is in it too, and
    the request's lang parameter is built from these codes. *)
Theorem translate_request_validated self text target source w :
  existsb (to_endpoint "translate")
    (issued w (snd (translate net self text (Some target) source w))) = true ->
  exists langs,
    cache_find (inst self) (lru (snd (translate net self text (Some target) source w))) =
      Some langs /\
    py_in target langs = Ok true /\
    match source with
    | None =>
        In (translate_request self text target)
          (issued w (snd (translate net self text (Some target) source w)))
    | Some src =>
        py_in src langs = Ok true /\
        In (translate_request self text (src ++ "-" ++ target)%string)
          (issued w (snd (translate net self text (Some target) source w)))
    end.
Proof.
  destruct (supported_languages net self w) as [[langs|e] w1] eqn:E.
  - destruct (translate_spec_cached net self text target source _ _ _ E)
      as (c & Hc & ->).
    assert (Hpre : exists gl, sent w1 = sent w ++ gl /\
                              existsb (to_endpoint "translate") gl = false).
    { destruct (accessor_ok_sent net _ _ _ _ E) as [Hs|[Hs _]]; eauto. }
    destruct Hpre as (gl & Hs & Hgl).
    destruct (direction_of langs source target) as [d|e] eqn:D; cbn [snd sent lru].
    + intros _. exists langs. destruct (direction_ok_inv _ _ _ _ D) as [Ht Hsrc].
      split; [exact Hc|]. split; [exact Ht|].
      erewrite issued_app by (cbn [sent]; rewrite Hs, <- app_assoc; reflexivity).
      destruct source as [src|].
      * destruct Hsrc as [Hsrc ->]. split; [exact Hsrc|].
        apply in_or_app. right. now left.
      * subst d. apply in_or_app. right. now left.
    + erewrite issued_app by (cbn [sent]; exact Hs). rewrite Hgl. discriminate.
  - rewrite (translate_raise net _ _ _ _ _ _ _ E). cbn [snd].
    destruct (accessor_raise_miss net _ _ _ _ E) as (_ & -> & _).
    erewrite issued_app by reflexivity. discriminate.
Qed.

(** X8: when translate gets the language collection (from the cache or by
    a fetch), the collection is cached for the instance afterwards whatever
    the outcome of translate itself: the next accessor call returns it and
    sends nothing. *)
Theorem translate_fills_cache self text target source w langs w1 :
  supported_languages net self w = (Ok langs, w1) ->
  fst (supported_languages net self (snd (translate net self text target source w))) =
    Ok langs /\
  sent (snd (supported_languages net self (snd (translate net self text target source w)))) =
    sent (snd (translate net self text target source w)).
Proof.
  intros E. rewrite translate_default_arg.
  set (tgt := match target with Some t => t | None => "en"%string end).
  destruct (translate_spec_cached net self text tgt source _ _ _ E) as (c & Hc & ->).
  destruct (direction_of langs source tgt) as [d|e]; cbn [snd];
    rewrite (accessor_hit net _ _ langs) by exact Hc; now split.
Qed.

(** X9: with the language collection cached for the instance, translate
    validates locally: it sends no getLangs request, raises the validation
    error without any request, and otherwise sends the translate request
    alone and answers from its outcome. *)
Theorem cached_translate self text target source w langs :
  cache_find (inst self) (lru w) = Some langs ->
  match direction_of langs source target with
  | Raise e =>
      fst (translate net self text (Some target) source w) = Raise e /\
      issued w (snd (translate net self text (Some target) source w)) = []
  | Ok d =>
      fst (translate net self text (Some target) source w) =
        api_result (net (sent w) (translate_request self text d)) /\
      issued w (snd (translate net self text (Some target) source w)) =
        [translate_request self text d]
  end.
Proof.
  intros Hc. pose proof (accessor_hit net self w langs Hc) as E.
  destruct (translate_spec net self text target source _ _ _ E) as (c & ->).
  cbn [sent]. destruct (direction_of langs source target) as [d|e]; cbn [fst snd].
  - split; [reflexivity|]. now apply issued_app.
  - split; [reflexivity|]. now apply issued_none.
Qed.

(** X10: a 200 answer to getLangs whose body is JSON but not an object makes
    the accessor raise AttributeError (the body has no [get]); nothing is
    cached, so the next call asks again. *)
Theorem accessor_non_object_body self w j :
  cache_find (inst self) (lru w) = None ->
  net (sent w) (getLangs_request self) = Returns (mkResponse 200 (Some j)) ->
  (forall fields, j <> JObj fields) ->
  fst (supported_languages net self w) = Raise AttributeError /\
  lru (snd (supported_languages net self w)) = lru w /\
  cache_find (inst self) (lru (snd (supported_languages net self w))) = None.
Proof.
  intros Hmiss Hnet Hj. rewrite (accessor_miss net _ _ Hmiss).
  unfold langs_result. rewrite Hnet. cbn.
  destruct j; try (now repeat split). now destruct (Hj fields).
Qed.

(** X11: detect_language is not cached: a run of calls sends one detect
    request per call, in the order of the calls, gives one result per call
    and leaves the language cache alone. *)
Theorem detect_calls_send_each self texts :
  forall w,
    sent (snd (detect_calls net self texts w)) =
      sent w ++ map (detect_request self) texts /\
    length (fst (detect_calls net self texts w)) = length texts /\
    lru (snd (detect_calls net self texts w)) = lru w.
Proof.
  induction texts as [|text texts IH]; intros w; cbn [detect_calls map].
  - cbn. now rewrite app_nil_r.
  - rewrite detect_spec.
    specialize (IH (mkWorld (sent w ++ [detect_request self text]) (lru w))).
    destruct (detect_calls net self texts _) as [rs w2]. cbn [fst snd sent lru] in *.
    destruct IH as (H1 & H2 & H3). rewrite H1, <- app_assoc. cbn. now rewrite H2.
Qed.

(** X12: against a service that always answers with a JSON body or refuses
    the connection, detect_language returns or raises YandexException,
    nothing else. *)
Theorem detect_language_raises_only_wrapper self text w :
  json_or_refused net ->
  (exists j, fst (detect_language net self text w) = Ok j) \/
  (exists arg, fst (detect_language net self text w) = Raise (YandexException arg)).
Proof.
  intros Hnet. rewrite detect_spec. cbn [fst].
  destruct (Hnet (sent w) (detect_request self text)) as [(st & j & ->)| ->]; cbn.
  - destruct (st =? 200)%Z; eauto.
  - eauto.
Qed.

Lemma cache_find_remove_other k i c :
  k <> i -> cache_find i (cache_remove k c) = cache_find i c.
Proof.
  intros Hne. unfold cache_remove.
  induction c as [|[k' v] c IH]; [reflexivity|]. cbn.
  destruct (Nat.eqb_spec k' k) as [->|Hk]; cbn.
  - destruct (Nat.eqb_spec k i); [contradiction|exact IH].
  - now rewrite IH.
Qed.

Lemma fetched_by_later log r i v :
  fetched_by net log i v -> fetched_by net (log ++ [r]) i v.
Proof.
  intros (self & h & t & Hi & -> & Hl). exists self, h, (t ++ [r]).
  rewrite <- app_assoc. auto.
Qed.

Lemma provenance_send w r :
  cache_provenance net w -> cache_provenance net (mkWorld (sent w ++ [r]) (lru w)).
Proof. intros Hw i v Hf. apply fetched_by_later. now apply Hw. Qed.

Lemma provenance_accessor self :
  preserves (cache_provenance net) (supported_languages net self).
Proof.
  intros w Hw. destruct (cache_find (inst self) (lru w)) as [v|] eqn:E.
  - rewrite (accessor_hit net _ _ _ E). cbn [snd]. intros i v' Hf. cbn in Hf |- *.
    destruct (Nat.eqb_spec (inst self) i) as [Hi|Hi].
    + injection Hf as <-. apply Hw. now rewrite <- Hi.
    + rewrite cache_find_remove_other in Hf by exact Hi. now apply Hw.
  - rewrite (accessor_miss net _ _ E).
    destruct (langs_result _) as [v|e] eqn:L; cbn [snd].
    + intros i v' Hf. cbn in Hf |- *.
      destruct (Nat.eqb_spec (inst self) i) as [Hi|Hi]; [|discriminate].
      injection Hf as <-. exists self, (sent w), []. auto.
    + now apply provenance_send.
Qed.

(** X13: from a fresh process, whatever operations run on whatever
    instances, the cache of supported_languages never holds more than one
    entry. *)
Theorem store_holds_one_entry (s : script) :
  length (lru (run_script net s fresh_world)) <= 1.
Proof.
  apply (preserves_script net (fun w => length (lru w) <= 1)).
  - now intros w r Hw.
  - intros self w Hw. now apply accessor_keeps_bound.
  - cbn. lia.
Qed.

(** X14: from a fresh process, whatever operations run on whatever
    instances, a value cached for an instance is the langs field of a 200
    answer to a getLangs request that this instance's session sent earlier:
    the cache is never filled from anything else. *)
Theorem cached_value_was_fetched (s : script) i v :
  cache_find i (lru (run_script net s fresh_world)) = Some v ->
  fetched_by net (sent (run_script net s fresh_world)) i v.
Proof.
  revert i v. change (cache_provenance net (run_script net s fresh_world)).
  apply (preserves_script net (cache_provenance net)).
  - apply provenance_send.
  - apply provenance_accessor.
  - intros i v Hf. discriminate.
Qed.

End Composition.

(** * Concrete runs of the further properties *)

Example html_error_page :
  translate net_html alice "hello" None None fresh_world =
  (Raise JSONDecodeError, mkWorld [getLangs_request alice] []).
Proof. reflexivity. Qed.

Example array_body :
  supported_languages net_array alice fresh_world =
  (Raise AttributeError, mkWorld [getLangs_request alice] []).
Proof. reflexivity. Qed.

Lemma undecodable_body_raises_witness :
  sent (snd (run_op net_html alice (OpDetectLanguage "Bonjour") fresh_world)) =
    sent fresh_world ++ [] ++ detect_request alice "Bonjour" :: [] /\
  net_html (sent fresh_world ++ []) (detect_request alice "Bonjour") =
    Returns (mkResponse 502 None) /\
  fst (run_op net_html alice (OpDetectLanguage "Bonjour") fresh_world) =
    Raise JSONDecodeError.
Proof.
  split; [reflexivity|]. split; [reflexivity|].
  apply (undecodable_body_raises net_html alice (OpDetectLanguage "Bonjour")
           fresh_world [] (detect_request alice "Bonjour") [] 502%Z);
    reflexivity.
Defined.

Lemma transport_error_propagates_witness :
  sent (snd (run_op net_timeout alice OpSupportedLanguages fresh_world)) =
    sent fresh_world ++ [] ++ getLangs_request alice :: [] /\
  net_timeout (sent fresh_world ++ []) (getLangs_request alice) = Raises RequestException /\
  is_ConnectionError RequestException = false /\
  fst (run_op net_timeout alice OpSupportedLanguages fresh_world) = Raise RequestException.
Proof.
  split; [reflexivity|]. split; [reflexivity|]. split; [reflexivity|].
  apply (transport_error_propagates net_timeout alice OpSupportedLanguages
           fresh_world [] (getLangs_request alice) [] RequestException);
    reflexivity.
Defined.

Lemma no_request_after_failure_witness :
  sent (snd (run_op net_401 alice (OpTranslate "hello" None None) fresh_world)) =
    sent fresh_world ++ [] ++ getLangs_request alice :: [] /\
  (forall j, net_401 (sent fresh_world ++ []) (getLangs_request alice) <>
             Returns (mkResponse 200 (Some j))) /\
  exists e, fst (run_op net_401 alice (OpTranslate "hello" None None) fresh_world) = Raise e.
Proof.
  assert (H : forall j, net_401 (sent fresh_world ++ []) (getLangs_request alice) <>
                        Returns (mkResponse 200 (Some j))) by (intros j; discriminate).
  split; [reflexivity|]. split; [exact H|].
  exact (proj2 (no_request_after_failure net_401 alice (OpTranslate "hello" None None)
                  fresh_world [] (getLangs_request alice) [] eq_refl H)).
Defined.

Lemma translate_result_provenance_witness :
  fst (translate net_ok alice "hello" (Some "es"%string) (Some "en"%string) fresh_world) =
    Ok (JObj [("code", JInt 200); ("lang", JStr "en-es"); ("text", JArr [JStr "hola"])]%string) /\
  exists pre d r,
    sent (snd (translate net_ok alice "hello" (Some "es"%string) (Some "en"%string)
                 fresh_world)) =
      sent fresh_world ++ pre ++ [translate_request alice "hello" d] /\
    net_ok (sent fresh_world ++ pre) (translate_request alice "hello" d) = Returns r /\
    status_code r = 200%Z /\
    body r =
      Some (JObj [("code", JInt 200); ("lang", JStr "en-es"); ("text", JArr [JStr "hola"])]%string).
Proof.
  split; [reflexivity|].
  apply (translate_result_provenance net_ok alice "hello" (Some "es"%string)
           (Some "en"%string) fresh_world). reflexivity.
Defined.

Lemma translate_request_validated_witness :
  existsb (to_endpoint "translate")
    (issued fresh_world
       (snd (translate net_ok alice "hello" (Some "es"%string) (Some "en"%string)
               fresh_world))) = true /\
  exists langs,
    cache_find (inst alice)
      (lru (snd (translate net_ok alice "hello" (Some "es"%string) (Some "en"%string)
                   fresh_world))) = Some langs /\
    py_in "es" langs = Ok true /\
    py_in "en" langs = Ok true /\
    In (translate_request alice "hello" "en-es")
      (issued fresh_world
         (snd (translate net_ok alice "hello" (Some "es"%string) (Some "en"%string)
                 fresh_world))).
Proof.
  split; [reflexivity|].
  exact (translate_request_validated net_ok alice "hello" "es" (Some "en"%string)
           fresh_world eq_refl).
Defined.

Lemma translate_fills_cache_witness :
  supported_languages net_translate_401 alice fresh_world = (Ok langs_value, alice_cached) /\
  fst (translate net_translate_401 alice "hello" (Some "es"%string) None fresh_world) =
    Raise (YandexException invalid_key_body) /\
  fst (supported_languages net_translate_401 alice
         (snd (translate net_translate_401 alice "hello" (Some "es"%string) None
                 fresh_world))) = Ok langs_value /\
  sent (snd (supported_languages net_translate_401 alice
               (snd (translate net_translate_401 alice "hello" (Some "es"%string) None
                       fresh_world)))) =
    sent (snd (translate net_translate_401 alice "hello" (Some "es"%string) None
                 fresh_world)).
Proof.
  split; [reflexivity|]. split; [reflexivity|].
  exact (translate_fills_cache net_translate_401 alice "hello" (Some "es"%string) None
           fresh_world langs_value alice_cached eq_refl).
Defined.

Lemma cached_translate_witness :
  cache_find (inst alice) (lru alice_cached) = Some langs_value /\
  fst (translate net_ok alice "x" (Some "zz"%string) None alice_cached) =
    Raise (YandexException (JStr "target language 'zz' not supported")) /\
  issued alice_cached (snd (translate net_ok alice "x" (Some "zz"%string) None alice_cached)) =
    [].
Proof.
  split; [reflexivity|].
  exact (cached_translate net_ok alice "x" "zz" None alice_cached langs_value eq_refl).
Defined.

Lemma accessor_non_object_body_witness :
  cache_find (inst alice) (lru fresh_world) = None /\
  net_array (sent fresh_world) (getLangs_request alice) =
    Returns (mkResponse 200 (Some (JArr [JStr "en"; JStr "es"]%string))) /\
  (forall fields, JArr [JStr "en"; JStr "es"]%string <> JObj fields) /\
  fst (supported_languages net_array alice fresh_world) = Raise AttributeError /\
  lru (snd (supported_languages net_array alice fresh_world)) = lru fresh_world.
Proof.
  assert (H : forall fields, JArr [JStr "en"; JStr "es"]%string <> JObj fields)
    by (intros fields; discriminate).
  split; [reflexivity|]. split; [reflexivity|]. split; [exact H|].
  pose proof (accessor_non_object_body net_array alice fresh_world
                (JArr [JStr "en"; JStr "es"]%string) eq_refl eq_refl H) as (H1 & H2 & _).
  split; assumption.
Defined.

Lemma detect_language_raises_only_wrapper_witness :
  json_or_refused net_401 /\
  ((exists j, fst (detect_language net_401 alice "Bonjour" fresh_world) = Ok j) \/
   (exists arg, fst (detect_language net_401 alice "Bonjour" fresh_world) =
                Raise (YandexException arg))).
Proof.
  assert (H : json_or_refused net_401).
  { intros h r. left. exists 401%Z, invalid_key_body. reflexivity. }
  split; [exact H|].
  exact (detect_language_raises_only_wrapper net_401 alice "Bonjour" fresh_world H).
Defined.

Lemma cached_value_was_fetched_witness :
  cache_find 1
    (lru (run_script net_ok
            [(alice, OpTranslate "hello" (Some "es"%string) None);
             (bob, OpSupportedLanguages);
             (alice, OpDetectLanguage "Bonjour")] fresh_world)) = Some langs_value /\
  fetched_by net_ok
    (sent (run_script net_ok
             [(alice, OpTranslate "hello" (Some "es"%string) None);
              (bob, OpSupportedLanguages);
              (alice, OpDetectLanguage "Bonjour")] fresh_world)) 1 langs_value.
Proof.
  split; [reflexivity|].
  exact (cached_value_was_fetched net_ok
           [(alice, OpTranslate "hello" (Some "es"%string) None);
            (bob, OpSupportedLanguages);
            (alice, OpDetectLanguage "Bonjour")] 1 langs_value eq_refl).
Defined.
